(** * Container identifier copy

    Verification of [copy_container_id] from
    [pkg/security/ebpf/c/container.h]:

<<
    static __attribute__((always_inline)) void
    copy_container_id(const char src[CONTAINER_ID_LEN],
                      char dst[CONTAINER_ID_LEN]) {
        __builtin_memmove(dst, src, CONTAINER_ID_LEN);
    }
>>

    The function is a state transformer on byte-addressed memory.  Memory is
    a finite map from addresses to bytes; the addresses in its domain are the
    ones that belong to a live object.  An access outside the domain is
    undefined behaviour in C and makes the model return [None]. *)

From Stdlib Require Import ZArith Lia List.
From Stdlib Require Import Init.Byte.
From stdpp Require Import gmap list.

Local Open Scope Z_scope.

(** ** Byte-addressed memory *)

Module Mem.

(** A [char] is one byte; a pointer is an address.  Pointer arithmetic is
    done in [Z]: a C object never wraps around the address space. *)
Abbreviation mem := (gmap Z byte).

(** [*p] as an rvalue. *)
Definition load_byte (m : mem) (p : Z) : option byte := m !! p.

(** [*p = b]; the address must belong to a live object. *)
Definition store_byte (m : mem) (p : Z) (b : byte) : option mem :=
  match m !! p with
  | Some _ => Some (<[p := b]> m)
  | None => None
  end.

(** Read the [n] bytes of the object starting at [p]. *)
Fixpoint load_bytes (m : mem) (p : Z) (n : nat) : option (list byte) :=
  match n with
  | O => Some []
  | S k =>
      match load_byte m p with
      | Some b =>
          match load_bytes m (p + 1) k with
          | Some bs => Some (b :: bs)
          | None => None
          end
      | None => None
      end
  end.

(** Write the bytes [bs] into the object starting at [p]. *)
Fixpoint store_bytes (m : mem) (p : Z) (bs : list byte) : option mem :=
  match bs with
  | [] => Some m
  | b :: bs' =>
      match store_byte m p b with
      | Some m1 => store_bytes m1 (p + 1) bs'
      | None => None
      end
  end.

(** [memmove(dst, src, n)] (ISO C 7.24.2.2, which [__builtin_memmove]
    implements): copying takes place as if the [n] characters of the
    object pointed to by [src] are first copied into a temporary array of
    [n] characters that overlaps neither object, and then the [n]
    characters of the temporary array are copied into the object pointed
    to by [dst].  The returned pointer ([dst]) is not part of the model:
    the only caller discards it. *)
Definition memmove (m : mem) (dst src : Z) (n : nat) : option mem :=
  match load_bytes m src n with
  | Some tmp => store_bytes m dst tmp
  | None => None
  end.

(** The address [a] lies in the [n]-byte window that starts at [p]. *)
Definition in_window (p : Z) (n : nat) (a : Z) : Prop :=
  p <= a < p + Z.of_nat n.

(** Two [n]-byte windows that share no address. *)
Definition disjoint (p q : Z) (n : nat) : Prop :=
  p + Z.of_nat n <= q \/ q + Z.of_nat n <= p.

(** Two [n]-byte windows that share at least one address: partial overlap
    at any offset, up to full aliasing ([p = q]). *)
Definition overlap (p q : Z) (n : nat) : Prop :=
  p < q + Z.of_nat n /\ q < p + Z.of_nat n.

(** A sequence of single-byte writes, in order. *)
Fixpoint store_all (m : mem) (ws : list (Z * byte)) : option mem :=
  match ws with
  | [] => Some m
  | (a, b) :: ws' =>
      match store_byte m a b with
      | Some m1 => store_all m1 ws'
      | None => None
      end
  end.

End Mem.

(** ** The function under verification *)

Module Container.

Section WithLen.

(** [CONTAINER_ID_LEN] is a macro of a header that includes this one; the
    development is parametric in it. *)
Variable CONTAINER_ID_LEN : nat.

(** [copy_container_id(src, dst)]: one call of [memmove] with the
    destination first and the fixed width as the count. *)
Definition copy_container_id (m : Mem.mem) (src dst : Z) : option Mem.mem :=
  Mem.memmove m dst src CONTAINER_ID_LEN.

End WithLen.

End Container.

(** ** Sample memories for concrete runs *)

Module Sample.

(** The memory whose only live object is the array [bs] at address [base]. *)
Fixpoint mem_of_list (base : Z) (bs : list byte) : Mem.mem :=
  match bs with
  | [] => ∅
  | b :: t => <[base := b]> (mem_of_list (base + 1) t)
  end.

(** Twelve live bytes at addresses 0..11: room for three identifiers of
    width 4, or for two overlapping ones. *)
Definition arena : Mem.mem :=
  mem_of_list 0 [x10; x11; x12; x13; x20; x21; x22; x23; x30; x31; x32; x33].

(** The same layout with other bytes outside the window at address 0. *)
Definition arena' : Mem.mem :=
  mem_of_list 0 [x10; x11; x12; x13; xa0; xa1; xa2; xa3; xb0; xb1; xb2; xb3].

End Sample.

(** ** Facts about the memory operations *)

Module MemFacts.

Import Mem.

(** *** Single-byte stores *)

Lemma store_byte_Some (m : mem) p b :
  is_Some (m !! p) -> store_byte m p b = Some (<[p := b]> m).
Proof. intros [x Hx]. unfold store_byte. now rewrite Hx. Qed.

Lemma store_byte_inv (m m' : mem) p b :
  store_byte m p b = Some m' -> is_Some (m !! p) /\ m' = <[p := b]> m.
Proof.
  unfold store_byte. destruct (m !! p) as [x|] eqn:E; [|discriminate].
  intros [= <-]. split; [now exists x | reflexivity].
Qed.

Lemma store_byte_dom (m m' : mem) p b :
  store_byte m p b = Some m' -> dom m' = dom m.
Proof.
  intros H. apply store_byte_inv in H as [Hp ->].
  rewrite dom_insert_L. apply subseteq_union_1_L, singleton_subseteq_l.
  now apply elem_of_dom.
Qed.

(** *** Loading a window *)

Lemma load_bytes_length (m : mem) p n bs :
  load_bytes m p n = Some bs -> length bs = n.
Proof.
  revert p bs. induction n as [|k IH]; intros p bs; simpl.
  - intros Heq. injection Heq as <-. reflexivity.
  - unfold load_byte. destruct (m !! p); [|discriminate].
    destruct (load_bytes m (p + 1) k) as [t|] eqn:E; [|discriminate].
    intros [= <-]. simpl. f_equal. now apply (IH (p + 1)).
Qed.

(** The list read from a window is the window, byte by byte. *)
Lemma load_bytes_lookup (m : mem) p n bs :
  load_bytes m p n = Some bs ->
  forall i : nat, (i < n)%nat -> m !! (p + Z.of_nat i) = bs !! i.
Proof.
  revert p bs. induction n as [|k IH]; intros p bs; simpl.
  - intros _ i Hi. lia.
  - unfold load_byte. destruct (m !! p) as [b|] eqn:Eb; [|discriminate].
    destruct (load_bytes m (p + 1) k) as [t|] eqn:E; [|discriminate].
    intros [= <-] [|i] Hi.
    + simpl. now rewrite Z.add_0_r.
    + replace (p + Z.of_nat (S i)) with (p + 1 + Z.of_nat i) by lia.
      simpl. apply IH; [assumption | lia].
Qed.

Lemma load_bytes_lookup_Some (m : mem) p n bs :
  load_bytes m p n = Some bs ->
  forall i : nat, (i < n)%nat -> is_Some (m !! (p + Z.of_nat i)).
Proof.
  intros H i Hi. rewrite (load_bytes_lookup _ _ _ _ H i Hi).
  apply lookup_lt_is_Some. now rewrite (load_bytes_length _ _ _ _ H).
Qed.

(** Loading reads the window and nothing else. *)
Lemma load_bytes_ext (m1 m2 : mem) p n :
  (forall a, in_window p n a -> m1 !! a = m2 !! a) ->
  load_bytes m1 p n = load_bytes m2 p n.
Proof.
  unfold in_window. revert p. induction n as [|k IH]; intros p H; simpl.
  - reflexivity.
  - unfold load_byte. rewrite (H p) by lia.
    rewrite (IH (p + 1)); [reflexivity | intros a Ha; apply H; lia].
Qed.

Lemma load_bytes_of_lookup (m : mem) p bs :
  (forall i : nat, (i < length bs)%nat -> m !! (p + Z.of_nat i) = bs !! i) ->
  load_bytes m p (length bs) = Some bs.
Proof.
  revert p. induction bs as [|b t IH]; intros p H; simpl.
  - reflexivity.
  - unfold load_byte. specialize (H O) as H0. simpl in H0.
    rewrite Z.add_0_r in H0. rewrite H0 by lia.
    rewrite IH; [reflexivity|].
    intros i Hi. specialize (H (S i)). simpl in H.
    replace (p + 1 + Z.of_nat i) with (p + Z.of_nat (S i)) by lia.
    apply H. lia.
Qed.

(** *** Storing into a window *)

(** A store leaves every address outside its window as it was. *)
Lemma store_bytes_lookup_out (m m' : mem) p bs a :
  store_bytes m p bs = Some m' ->
  ~ in_window p (length bs) a ->
  m' !! a = m !! a.
Proof.
  unfold in_window. revert m p. induction bs as [|b t IH]; intros m p; simpl.
  - intros Heq _. now injection Heq as <-.
  - destruct (store_byte m p b) as [m1|] eqn:E; [|discriminate].
    intros Ht Ha. apply store_byte_inv in E as [_ ->].
    rewrite (IH _ _ Ht) by lia. apply lookup_insert_ne. lia.
Qed.

(** Inside its window a store leaves byte [i] of the list at offset [i]. *)
Lemma store_bytes_lookup_in (m m' : mem) p bs (i : nat) :
  store_bytes m p bs = Some m' ->
  (i < length bs)%nat ->
  m' !! (p + Z.of_nat i) = bs !! i.
Proof.
  revert m p i. induction bs as [|b t IH]; intros m p i; simpl.
  - lia.
  - destruct (store_byte m p b) as [m1|] eqn:E; [|discriminate].
    intros Ht Hi. apply store_byte_inv in E as [_ ->].
    destruct i as [|i].
    + rewrite Z.add_0_r.
      rewrite (store_bytes_lookup_out _ _ _ _ p Ht) by (unfold in_window; lia).
      apply lookup_insert_eq.
    + replace (p + Z.of_nat (S i)) with (p + 1 + Z.of_nat i) by lia.
      simpl. apply (IH _ _ _ Ht). lia.
Qed.

Lemma store_bytes_load (m m' : mem) p bs :
  store_bytes m p bs = Some m' -> load_bytes m' p (length bs) = Some bs.
Proof.
  intros H. apply load_bytes_of_lookup.
  intros i Hi. now apply (store_bytes_lookup_in m).
Qed.

(** A store neither maps nor unmaps an address. *)
Lemma store_bytes_dom (m m' : mem) p bs :
  store_bytes m p bs = Some m' -> dom m' = dom m.
Proof.
  revert m p. induction bs as [|b t IH]; intros m p; simpl.
  - intros Heq. now injection Heq as <-.
  - destruct (store_byte m p b) as [m1|] eqn:E; [|discriminate].
    intros Ht. rewrite (IH _ _ Ht). now apply (store_byte_dom m m1 p b).
Qed.

(** A store into a window of live addresses succeeds. *)
Lemma store_bytes_Some (m : mem) p bs :
  (forall a, in_window p (length bs) a -> is_Some (m !! a)) ->
  is_Some (store_bytes m p bs).
Proof.
  unfold in_window. revert m p. induction bs as [|b t IH]; intros m p H.
  - simpl. now exists m.
  - simpl in *. rewrite store_byte_Some by (apply H; lia).
    apply IH. intros a Ha.
    destruct (decide (p = a)) as [->|Hne].
    + rewrite lookup_insert_eq. now exists b.
    + rewrite lookup_insert_ne by assumption. apply H. lia.
Qed.

Lemma window_offset p n a :
  in_window p n a -> exists i : nat, (i < n)%nat /\ a = p + Z.of_nat i.
Proof.
  unfold in_window. intros H. exists (Z.to_nat (a - p)). lia.
Qed.

Lemma load_bytes_window_Some (m : mem) p n bs a :
  load_bytes m p n = Some bs -> in_window p n a -> is_Some (m !! a).
Proof.
  intros H Ha. apply window_offset in Ha as (i & Hi & ->).
  now apply (load_bytes_lookup_Some m p n bs).
Qed.

(** Writing back what a window holds changes nothing. *)
Lemma store_bytes_same (m : mem) p n bs :
  load_bytes m p n = Some bs -> store_bytes m p bs = Some m.
Proof.
  revert p bs. induction n as [|k IH]; intros p bs; simpl.
  - intros Heq. now injection Heq as <-.
  - unfold load_byte. destruct (m !! p) as [b|] eqn:Eb; [|discriminate].
    destruct (load_bytes m (p + 1) k) as [t|] eqn:E; [|discriminate].
    intros Heq. injection Heq as <-. simpl.
    unfold store_byte. rewrite Eb. rewrite (insert_id m p b Eb).
    now apply IH.
Qed.

(** *** Sequences of single-byte writes *)

Lemma store_all_lookup_out (m m' : mem) ws a :
  store_all m ws = Some m' ->
  Forall (fun w => fst w <> a) ws ->
  m' !! a = m !! a.
Proof.
  revert m. induction ws as [|[q b] t IH]; intros m; simpl.
  - intros Heq _. now injection Heq as <-.
  - destruct (store_byte m q b) as [m1|] eqn:E; [|discriminate].
    intros Ht Hall. apply store_byte_inv in E as [_ ->].
    apply Forall_cons in Hall as [Hq Hall]. simpl in Hq.
    rewrite (IH _ Ht Hall). now apply lookup_insert_ne.
Qed.

(** *** [memmove] *)

Lemma memmove_Some (m : mem) dst src n s d :
  load_bytes m src n = Some s ->
  load_bytes m dst n = Some d ->
  exists m', memmove m dst src n = Some m'.
Proof.
  intros Hs Hd. unfold memmove. rewrite Hs.
  destruct (store_bytes_Some m dst s) as [m' Hm'].
  - rewrite (load_bytes_length _ _ _ _ Hs).
    intros a Ha. now apply (load_bytes_window_Some m dst n d).
  - now exists m'.
Qed.

Lemma memmove_inv (m m' : mem) dst src n :
  memmove m dst src n = Some m' ->
  exists s,
    load_bytes m src n = Some s /\ length s = n /\ store_bytes m dst s = Some m'.
Proof.
  unfold memmove. destruct (load_bytes m src n) as [s|] eqn:E; [|discriminate].
  intros H. exists s. split; [reflexivity|]. split; [|assumption].
  now apply (load_bytes_length m src).
Qed.

(** After the call the destination window holds what the source window
    held before it, whatever the overlap. *)
Lemma memmove_load_dst (m m' : mem) dst src n s :
  load_bytes m src n = Some s ->
  memmove m dst src n = Some m' ->
  load_bytes m' dst n = Some s.
Proof.
  intros Hs H. apply memmove_inv in H as (s' & Hs' & Hlen & Hst).
  rewrite Hs in Hs'. injection Hs' as <-.
  rewrite <- Hlen. now apply (store_bytes_load m).
Qed.

Lemma memmove_lookup_out (m m' : mem) dst src n a :
  memmove m dst src n = Some m' ->
  ~ in_window dst n a ->
  m' !! a = m !! a.
Proof.
  intros H Ha. apply memmove_inv in H as (s & _ & Hlen & Hst).
  apply (store_bytes_lookup_out _ _ _ _ a Hst). now rewrite Hlen.
Qed.

Lemma memmove_lookup_in (m m' : mem) dst src n (i : nat) :
  memmove m dst src n = Some m' ->
  (i < n)%nat ->
  m' !! (dst + Z.of_nat i) = m !! (src + Z.of_nat i).
Proof.
  intros H Hi. apply memmove_inv in H as (s & Hs & Hlen & Hst).
  rewrite (store_bytes_lookup_in _ _ _ _ i Hst) by lia.
  symmetry. now apply (load_bytes_lookup m src n).
Qed.

Lemma memmove_dom (m m' : mem) dst src n :
  memmove m dst src n = Some m' -> dom m' = dom m.
Proof.
  intros H. apply memmove_inv in H as (s & _ & _ & Hst).
  now apply (store_bytes_dom m m' dst s).
Qed.

(** A window disjoint from the destination is read back unchanged. *)
Lemma memmove_load_disjoint (m m' : mem) dst src n p :
  memmove m dst src n = Some m' ->
  disjoint p dst n ->
  load_bytes m' p n = load_bytes m p n.
Proof.
  intros H Hdis. apply load_bytes_ext. intros a Ha.
  apply (memmove_lookup_out _ _ _ _ _ _ H).
  unfold in_window, disjoint in *. lia.
Qed.

End MemFacts.

(** ** Properties of [copy_container_id] *)

Module ContainerSpec.

Import Mem MemFacts Container.

(** *** Concrete runs, width 4 *)

Example run_disjoint :
  copy_container_id 4 Sample.arena 0 8 =
  Some (Sample.mem_of_list 0
          [x10; x11; x12; x13; x20; x21; x22; x23; x10; x11; x12; x13]).
Proof. vm_compute. reflexivity. Qed.

Example run_overlap_up :
  copy_container_id 4 Sample.arena 0 2 =
  Some (Sample.mem_of_list 0
          [x10; x11; x10; x11; x12; x13; x22; x23; x30; x31; x32; x33]).
Proof. vm_compute. reflexivity. Qed.

Example run_overlap_down :
  copy_container_id 4 Sample.arena 2 0 =
  Some (Sample.mem_of_list 0
          [x12; x13; x20; x21; x20; x21; x22; x23; x30; x31; x32; x33]).
Proof. vm_compute. reflexivity. Qed.

(** On overlapping windows a second call moves the bytes once more. *)
Example run_overlap_twice :
  copy_container_id 4
    (Sample.mem_of_list 0
       [x10; x11; x10; x11; x12; x13; x22; x23; x30; x31; x32; x33]) 0 2 =
  Some (Sample.mem_of_list 0
          [x10; x11; x10; x11; x10; x11; x22; x23; x30; x31; x32; x33]).
Proof. vm_compute. reflexivity. Qed.

(** A window that leaves the live object is undefined behaviour. *)
Example run_out_of_bounds :
  copy_container_id 4 Sample.arena 0 10 = None.
Proof. vm_compute. reflexivity. Qed.

Section WithLen.

Variable CONTAINER_ID_LEN : nat.

Implicit Types (m : mem) (src dst : Z) (s d : list byte).

(** C1.  For a source buffer and a destination buffer of
    [CONTAINER_ID_LEN] bytes each, wherever they lie, the call returns
    and the destination then holds, byte for byte and over its full
    width, the bytes the source held before the call. *)
Theorem copy_container_id_copies m src dst s d :
  load_bytes m src CONTAINER_ID_LEN = Some s ->
  load_bytes m dst CONTAINER_ID_LEN = Some d ->
  exists m',
    copy_container_id CONTAINER_ID_LEN m src dst = Some m' /\
    load_bytes m' dst CONTAINER_ID_LEN = Some s /\
    length s = CONTAINER_ID_LEN.
Proof.
  intros Hs Hd. unfold copy_container_id.
  destruct (memmove_Some m dst src _ s d Hs Hd) as [m' Hm'].
  exists m'. split; [assumption|]. split.
  - now apply (memmove_load_dst m m' dst src).
  - now apply (load_bytes_length m src).
Qed.

(** C2.  When the two windows overlap, at any offset up to full aliasing,
    the call still returns, and every byte of the destination window
    equals the byte the source window held at the same offset
    immediately before the call. *)
Theorem copy_container_id_overlap_safe m src dst s d :
  overlap src dst CONTAINER_ID_LEN ->
  load_bytes m src CONTAINER_ID_LEN = Some s ->
  load_bytes m dst CONTAINER_ID_LEN = Some d ->
  exists m',
    copy_container_id CONTAINER_ID_LEN m src dst = Some m' /\
    forall i : nat, (i < CONTAINER_ID_LEN)%nat ->
      m' !! (dst + Z.of_nat i) = m !! (src + Z.of_nat i) /\
      m' !! (dst + Z.of_nat i) = s !! i.
Proof.
  intros _ Hs Hd. unfold copy_container_id.
  destruct (memmove_Some m dst src _ s d Hs Hd) as [m' Hm'].
  exists m'. split; [assumption|]. intros i Hi.
  pose proof (memmove_lookup_in _ _ _ _ _ i Hm' Hi) as Hin.
  split; [assumption|].
  rewrite Hin. now apply (load_bytes_lookup m src CONTAINER_ID_LEN).
Qed.

(** C3.  The call writes the destination window and nothing else: every
    address outside it reads as before, a source disjoint from the
    destination still holds its bytes, and the set of live addresses is
    the same (nothing is allocated or freed).  Memory is the whole state
    of the model, so there is no other effect. *)
Theorem copy_container_id_frame m src dst s d :
  load_bytes m src CONTAINER_ID_LEN = Some s ->
  load_bytes m dst CONTAINER_ID_LEN = Some d ->
  exists m',
    copy_container_id CONTAINER_ID_LEN m src dst = Some m' /\
    (forall a, ~ in_window dst CONTAINER_ID_LEN a -> m' !! a = m !! a) /\
    (disjoint src dst CONTAINER_ID_LEN ->
     load_bytes m' src CONTAINER_ID_LEN = Some s) /\
    dom m' = dom m.
Proof.
  intros Hs Hd. unfold copy_container_id.
  destruct (memmove_Some m dst src _ s d Hs Hd) as [m' Hm'].
  exists m'. split; [assumption|]. split; [|split].
  - intros a Ha. now apply (memmove_lookup_out m m' dst src CONTAINER_ID_LEN).
  - intros Hdis. rewrite <- Hs.
    now apply (memmove_load_disjoint m m' dst src).
  - now apply (memmove_dom m m' dst src CONTAINER_ID_LEN).
Qed.

(** C4.  Two runs from memories that agree on the source window (and may
    differ anywhere else) leave the same bytes in the destination: the
    result depends on the [CONTAINER_ID_LEN] source bytes only. *)
Theorem copy_container_id_reads_window_only m1 m2 src dst s d1 d2 :
  load_bytes m1 src CONTAINER_ID_LEN = Some s ->
  load_bytes m2 src CONTAINER_ID_LEN = Some s ->
  load_bytes m1 dst CONTAINER_ID_LEN = Some d1 ->
  load_bytes m2 dst CONTAINER_ID_LEN = Some d2 ->
  exists m1' m2',
    copy_container_id CONTAINER_ID_LEN m1 src dst = Some m1' /\
    copy_container_id CONTAINER_ID_LEN m2 src dst = Some m2' /\
    load_bytes m1' dst CONTAINER_ID_LEN = load_bytes m2' dst CONTAINER_ID_LEN.
Proof.
  intros Hs1 Hs2 Hd1 Hd2. unfold copy_container_id.
  destruct (memmove_Some m1 dst src _ s d1 Hs1 Hd1) as [m1' Hm1'].
  destruct (memmove_Some m2 dst src _ s d2 Hs2 Hd2) as [m2' Hm2'].
  exists m1', m2'. split; [assumption|]. split; [assumption|].
  rewrite (memmove_load_dst _ _ _ _ _ _ Hs1 Hm1').
  now rewrite (memmove_load_dst _ _ _ _ _ _ Hs2 Hm2').
Qed.

(** C5.  For disjoint windows the copy is independent storage: after the
    call, any sequence of writes into the source window leaves the
    destination holding the copied bytes. *)
Theorem copy_container_id_independent m src dst s d :
  disjoint src dst CONTAINER_ID_LEN ->
  load_bytes m src CONTAINER_ID_LEN = Some s ->
  load_bytes m dst CONTAINER_ID_LEN = Some d ->
  exists m',
    copy_container_id CONTAINER_ID_LEN m src dst = Some m' /\
    load_bytes m' dst CONTAINER_ID_LEN = Some s /\
    forall ws m'',
      Forall (fun w => in_window src CONTAINER_ID_LEN (fst w)) ws ->
      store_all m' ws = Some m'' ->
      load_bytes m'' dst CONTAINER_ID_LEN = load_bytes m' dst CONTAINER_ID_LEN.
Proof.
  intros Hdis Hs Hd. unfold copy_container_id.
  destruct (memmove_Some m dst src _ s d Hs Hd) as [m' Hm'].
  exists m'. split; [assumption|].
  split; [now apply (memmove_load_dst m m' dst src)|].
  intros ws m'' Hws Hst. apply load_bytes_ext. intros a Ha.
  apply (store_all_lookup_out _ _ _ _ Hst).
  eapply Forall_impl; [exact Hws|].
  intros w Hw. unfold in_window, disjoint in *. lia.
Qed.

(** C7.  Copying a window onto itself leaves the whole memory as it
    was. *)
Theorem copy_container_id_self m src s :
  load_bytes m src CONTAINER_ID_LEN = Some s ->
  copy_container_id CONTAINER_ID_LEN m src src = Some m.
Proof.
  intros Hs. unfold copy_container_id, memmove. rewrite Hs.
  now apply (store_bytes_same m src CONTAINER_ID_LEN).
Qed.

(** C8.  For disjoint windows a second call changes nothing: the memory
    after two calls in a row is the memory after one. *)
Theorem copy_container_id_idempotent m src dst s d :
  disjoint src dst CONTAINER_ID_LEN ->
  load_bytes m src CONTAINER_ID_LEN = Some s ->
  load_bytes m dst CONTAINER_ID_LEN = Some d ->
  exists m',
    copy_container_id CONTAINER_ID_LEN m src dst = Some m' /\
    copy_container_id CONTAINER_ID_LEN m' src dst = Some m'.
Proof.
  intros Hdis Hs Hd. unfold copy_container_id.
  destruct (memmove_Some m dst src _ s d Hs Hd) as [m' Hm'].
  exists m'. split; [assumption|].
  unfold memmove at 1.
  rewrite (memmove_load_disjoint _ _ _ _ _ src Hm' Hdis), Hs.
  apply (store_bytes_same m' dst CONTAINER_ID_LEN).
  now apply (memmove_load_dst m m' dst src).
Qed.

(** C9.  For pairwise disjoint windows [a], [b], [c], copying [a] to [b]
    and then [b] to [c] leaves in [c] the bytes [a] held before the
    first call. *)
Theorem copy_container_id_compose m a b c sa sb sc :
  disjoint a b CONTAINER_ID_LEN ->
  disjoint b c CONTAINER_ID_LEN ->
  disjoint a c CONTAINER_ID_LEN ->
  load_bytes m a CONTAINER_ID_LEN = Some sa ->
  load_bytes m b CONTAINER_ID_LEN = Some sb ->
  load_bytes m c CONTAINER_ID_LEN = Some sc ->
  exists m1 m2,
    copy_container_id CONTAINER_ID_LEN m a b = Some m1 /\
    copy_container_id CONTAINER_ID_LEN m1 b c = Some m2 /\
    load_bytes m2 c CONTAINER_ID_LEN = Some sa.
Proof.
  intros Hab Hbc Hac Ha Hb Hc. unfold copy_container_id.
  destruct (memmove_Some m b a _ sa sb Ha Hb) as [m1 Hm1].
  pose proof (memmove_load_dst _ _ _ _ _ _ Ha Hm1) as Hb1.
  assert (Hc1 : load_bytes m1 c CONTAINER_ID_LEN = Some sc).
  { rewrite <- Hc. apply (memmove_load_disjoint _ _ _ _ _ c Hm1).
    unfold disjoint in *. lia. }
  destruct (memmove_Some m1 c b _ sa sc Hb1 Hc1) as [m2 Hm2].
  exists m1, m2. split; [assumption|]. split; [assumption|].
  now apply (memmove_load_dst m1 m2 c b).
Qed.

End WithLen.

(** *** The theorems at width 4, on the sample memory *)

Lemma copy_container_id_copies_witness :
  exists m',
    copy_container_id 4 Sample.arena 0 8 = Some m' /\
    load_bytes m' 8 4 = Some [x10; x11; x12; x13] /\
    length [x10; x11; x12; x13] = 4%nat.
Proof.
  apply (copy_container_id_copies 4 Sample.arena 0 8
           [x10; x11; x12; x13] [x30; x31; x32; x33]);
    vm_compute; reflexivity.
Defined.

Lemma copy_container_id_overlap_safe_witness :
  exists m',
    copy_container_id 4 Sample.arena 0 2 = Some m' /\
    forall i : nat, (i < 4)%nat ->
      m' !! (2 + Z.of_nat i) = Sample.arena !! (0 + Z.of_nat i) /\
      m' !! (2 + Z.of_nat i) = [x10; x11; x12; x13] !! i.
Proof.
  apply (copy_container_id_overlap_safe 4 Sample.arena 0 2
           [x10; x11; x12; x13] [x12; x13; x20; x21]).
  - unfold overlap. lia.
  - vm_compute. reflexivity.
  - vm_compute. reflexivity.
Defined.

Lemma copy_container_id_frame_witness :
  exists m',
    copy_container_id 4 Sample.arena 0 8 = Some m' /\
    (forall a, ~ in_window 8 4 a -> m' !! a = Sample.arena !! a) /\
    (disjoint 0 8 4 -> load_bytes m' 0 4 = Some [x10; x11; x12; x13]) /\
    dom m' = dom Sample.arena.
Proof.
  apply (copy_container_id_frame 4 Sample.arena 0 8
           [x10; x11; x12; x13] [x30; x31; x32; x33]);
    vm_compute; reflexivity.
Defined.

Lemma copy_container_id_reads_window_only_witness :
  exists m1' m2',
    copy_container_id 4 Sample.arena 0 8 = Some m1' /\
    copy_container_id 4 Sample.arena' 0 8 = Some m2' /\
    load_bytes m1' 8 4 = load_bytes m2' 8 4.
Proof.
  apply (copy_container_id_reads_window_only 4 Sample.arena Sample.arena' 0 8
           [x10; x11; x12; x13] [x30; x31; x32; x33] [xb0; xb1; xb2; xb3]);
    vm_compute; reflexivity.
Defined.

Lemma copy_container_id_independent_witness :
  exists m',
    copy_container_id 4 Sample.arena 0 8 = Some m' /\
    load_bytes m' 8 4 = Some [x10; x11; x12; x13] /\
    forall ws m'',
      Forall (fun w => in_window 0 4 (fst w)) ws ->
      store_all m' ws = Some m'' ->
      load_bytes m'' 8 4 = load_bytes m' 8 4.
Proof.
  apply (copy_container_id_independent 4 Sample.arena 0 8
           [x10; x11; x12; x13] [x30; x31; x32; x33]).
  - unfold disjoint. lia.
  - vm_compute. reflexivity.
  - vm_compute. reflexivity.
Defined.

Lemma copy_container_id_self_witness :
  copy_container_id 4 Sample.arena 4 4 = Some Sample.arena.
Proof.
  apply (copy_container_id_self 4 Sample.arena 4 [x20; x21; x22; x23]).
  vm_compute. reflexivity.
Defined.

Lemma copy_container_id_idempotent_witness :
  exists m',
    copy_container_id 4 Sample.arena 0 8 = Some m' /\
    copy_container_id 4 m' 0 8 = Some m'.
Proof.
  apply (copy_container_id_idempotent 4 Sample.arena 0 8
           [x10; x11; x12; x13] [x30; x31; x32; x33]).
  - unfold disjoint. lia.
  - vm_compute. reflexivity.
  - vm_compute. reflexivity.
Defined.

Lemma copy_container_id_compose_witness :
  exists m1 m2,
    copy_container_id 4 Sample.arena 0 4 = Some m1 /\
    copy_container_id 4 m1 4 8 = Some m2 /\
    load_bytes m2 8 4 = Some [x10; x11; x12; x13].
Proof.
  apply (copy_container_id_compose 4 Sample.arena 0 4 8
           [x10; x11; x12; x13] [x20; x21; x22; x23] [x30; x31; x32; x33]).
  - unfold disjoint. lia.
  - unfold disjoint. lia.
  - unfold disjoint. lia.
  - vm_compute. reflexivity.
  - vm_compute. reflexivity.
  - vm_compute. reflexivity.
Defined.

End ContainerSpec.


(** ** Further facts: liveness of windows and the memory after a move *)

Module MemLive.

Import Mem MemFacts.

(** A window can be read exactly when all its addresses are live. *)
Lemma load_bytes_is_Some (m : mem) p n :
  is_Some (load_bytes m p n) <->
  (forall a, in_window p n a -> a ∈ dom m).
Proof.
  split.
  - intros [bs Hbs] a Ha. apply elem_of_dom.
    now apply (load_bytes_window_Some m p n bs).
  - unfold in_window. revert p. induction n as [|k IH]; intros p H; simpl.
    + now exists [].
    + unfold load_byte.
      destruct (proj1 (elem_of_dom m p) (H p ltac:(lia))) as [b ->].
      destruct (IH (p + 1)) as [t ->]; [intros a Ha; apply H; lia|].
      now exists (b :: t).
Qed.

(** A store that succeeds wrote into live addresses only. *)
Lemma store_bytes_live (m m' : mem) p bs a :
  store_bytes m p bs = Some m' ->
  in_window p (length bs) a ->
  a ∈ dom m.
Proof.
  intros H Ha. rewrite <- (store_bytes_dom _ _ _ _ H).
  apply window_offset in Ha as (i & Hi & ->).
  apply elem_of_dom. rewrite (store_bytes_lookup_in _ _ _ _ i H Hi).
  now apply lookup_lt_is_Some.
Qed.

(** Liveness of a window only depends on the set of live addresses. *)
Lemma load_bytes_is_Some_dom (m1 m2 : mem) p n :
  dom m1 = dom m2 ->
  is_Some (load_bytes m1 p n) -> is_Some (load_bytes m2 p n).
Proof.
  intros Hdom H. apply load_bytes_is_Some. rewrite <- Hdom.
  now apply load_bytes_is_Some.
Qed.

(** Inside the destination window the memory after a move holds the byte
    that was at the same offset of the source window. *)
Lemma memmove_lookup_dst (m m' : mem) dst src n x :
  memmove m dst src n = Some m' ->
  in_window dst n x ->
  m' !! x = m !! (src + (x - dst)).
Proof.
  intros H Hx. apply window_offset in Hx as (i & Hi & ->).
  rewrite (memmove_lookup_in _ _ _ _ _ i H Hi). f_equal. lia.
Qed.

(** Reading a window of a stated width from its bytes. *)
Lemma load_bytes_of_lookup_len (m : mem) p n bs :
  length bs = n ->
  (forall i : nat, (i < n)%nat -> m !! (p + Z.of_nat i) = bs !! i) ->
  load_bytes m p n = Some bs.
Proof. intros <- H. now apply load_bytes_of_lookup. Qed.

Lemma in_window_dec p n a : {in_window p n a} + {~ in_window p n a}.
Proof.
  unfold in_window.
  destruct (Z_le_dec p a); destruct (Z_lt_dec a (p + Z.of_nat n));
    first [left; lia | right; lia].
Qed.

End MemLive.

(** ** How calls of [copy_container_id] succeed and compose *)

Module ContainerCompose.

Import Mem MemFacts MemLive Container.

Section WithLen.

Variable CONTAINER_ID_LEN : nat.

Implicit Types (m : mem) (src dst : Z) (s d : list byte).

(** X1.  The call is defined exactly when every address of the source
    window and of the destination window is live; the bytes held there play
    no part, and at width 0 it is always defined. *)
Theorem copy_container_id_defined_iff m src dst :
  is_Some (copy_container_id CONTAINER_ID_LEN m src dst) <->
  (forall a,
     in_window src CONTAINER_ID_LEN a \/ in_window dst CONTAINER_ID_LEN a ->
     a ∈ dom m).
Proof.
  unfold copy_container_id. split.
  - intros [m' Hm'] a Ha.
    apply memmove_inv in Hm' as (s & Hs & Hlen & Hst).
    destruct Ha as [Ha|Ha].
    + apply (proj1 (load_bytes_is_Some m src CONTAINER_ID_LEN)); [|exact Ha].
      now exists s.
    + apply (store_bytes_live m m' dst s); [exact Hst|]. now rewrite Hlen.
  - intros H.
    destruct (proj2 (load_bytes_is_Some m src CONTAINER_ID_LEN)) as [s Hs];
      [intros a Ha; apply H; now left|].
    destruct (proj2 (load_bytes_is_Some m dst CONTAINER_ID_LEN)) as [d Hd];
      [intros a Ha; apply H; now right|].
    destruct (memmove_Some m dst src _ s d Hs Hd) as [m' Hm'].
    now exists m'.
Qed.

(** X2.  Copying through an intermediate buffer needs no disjointness: for
    live windows [a], [b], [c] placed anywhere, also overlapping one
    another, copying [a] to [b] and then [b] to [c] leaves in [c] the bytes
    [a] held before the first call. *)
Theorem copy_container_id_chain_any m a b c sa sb sc :
  load_bytes m a CONTAINER_ID_LEN = Some sa ->
  load_bytes m b CONTAINER_ID_LEN = Some sb ->
  load_bytes m c CONTAINER_ID_LEN = Some sc ->
  exists m1 m2,
    copy_container_id CONTAINER_ID_LEN m a b = Some m1 /\
    copy_container_id CONTAINER_ID_LEN m1 b c = Some m2 /\
    load_bytes m2 c CONTAINER_ID_LEN = Some sa.
Proof.
  intros Ha Hb Hc. unfold copy_container_id.
  destruct (memmove_Some m b a _ sa sb Ha Hb) as [m1 Hm1].
  pose proof (memmove_load_dst _ _ _ _ _ _ Ha Hm1) as Hb1.
  destruct (load_bytes_is_Some_dom m m1 c CONTAINER_ID_LEN) as [sc1 Hc1].
  { symmetry. now apply (memmove_dom m m1 b a CONTAINER_ID_LEN). }
  { now exists sc. }
  destruct (memmove_Some m1 c b _ sa sc1 Hb1 Hc1) as [m2 Hm2].
  exists m1, m2. split; [assumption|]. split; [assumption|].
  now apply (memmove_load_dst m1 m2 c b).
Qed.

(** X3.  Copying back restores the source: after [src] is copied to [dst]
    and [dst] back to [src], the source window holds its original bytes,
    also when the first call overwrote part of it through an overlap; for
    disjoint windows the second call changes nothing at all. *)
Theorem copy_container_id_round_trip m src dst s d :
  load_bytes m src CONTAINER_ID_LEN = Some s ->
  load_bytes m dst CONTAINER_ID_LEN = Some d ->
  exists m1 m2,
    copy_container_id CONTAINER_ID_LEN m src dst = Some m1 /\
    copy_container_id CONTAINER_ID_LEN m1 dst src = Some m2 /\
    load_bytes m2 src CONTAINER_ID_LEN = Some s /\
    (disjoint src dst CONTAINER_ID_LEN -> m2 = m1).
Proof.
  intros Hs Hd. unfold copy_container_id.
  destruct (memmove_Some m dst src _ s d Hs Hd) as [m1 Hm1].
  pose proof (memmove_load_dst _ _ _ _ _ _ Hs Hm1) as Hd1.
  destruct (load_bytes_is_Some_dom m m1 src CONTAINER_ID_LEN) as [s1 Hs1].
  { symmetry. now apply (memmove_dom m m1 dst src CONTAINER_ID_LEN). }
  { now exists s. }
  destruct (memmove_Some m1 src dst _ s s1 Hd1 Hs1) as [m2 Hm2].
  exists m1, m2. split; [assumption|]. split; [assumption|]. split.
  - now apply (memmove_load_dst m1 m2 src dst).
  - intros Hdis.
    assert (Hsame : load_bytes m1 src CONTAINER_ID_LEN = Some s).
    { rewrite <- Hs. now apply (memmove_load_disjoint m m1 dst src). }
    unfold memmove in Hm2. rewrite Hd1 in Hm2.
    rewrite (store_bytes_same m1 src CONTAINER_ID_LEN s Hsame) in Hm2.
    now injection Hm2 as <-.
Qed.

(** X4.  Copies into separate destinations commute: when the destination of
    each call is disjoint from both windows of the other call, the two
    calls give the same memory in either order (each call's own source and
    destination may overlap, and the two sources may overlap). *)
Theorem copy_container_id_commute m a b c e sa sb sc se :
  disjoint b c CONTAINER_ID_LEN ->
  disjoint b e CONTAINER_ID_LEN ->
  disjoint a e CONTAINER_ID_LEN ->
  load_bytes m a CONTAINER_ID_LEN = Some sa ->
  load_bytes m b CONTAINER_ID_LEN = Some sb ->
  load_bytes m c CONTAINER_ID_LEN = Some sc ->
  load_bytes m e CONTAINER_ID_LEN = Some se ->
  exists m1 m1' m2,
    copy_container_id CONTAINER_ID_LEN m a b = Some m1 /\
    copy_container_id CONTAINER_ID_LEN m1 c e = Some m2 /\
    copy_container_id CONTAINER_ID_LEN m c e = Some m1' /\
    copy_container_id CONTAINER_ID_LEN m1' a b = Some m2.
Proof.
  intros Hbc Hbe Hae Ha Hb Hc He. unfold copy_container_id.
  destruct (memmove_Some m b a _ sa sb Ha Hb) as [m1 Hm1].
  destruct (memmove_Some m e c _ sc se Hc He) as [m1' Hm1'].
  assert (Hc1 : load_bytes m1 c CONTAINER_ID_LEN = Some sc).
  { rewrite <- Hc. apply (memmove_load_disjoint _ _ _ _ _ c Hm1).
    unfold disjoint in *. lia. }
  assert (He1 : load_bytes m1 e CONTAINER_ID_LEN = Some se).
  { rewrite <- He. apply (memmove_load_disjoint _ _ _ _ _ e Hm1).
    unfold disjoint in *. lia. }
  assert (Ha1 : load_bytes m1' a CONTAINER_ID_LEN = Some sa).
  { rewrite <- Ha. now apply (memmove_load_disjoint _ _ _ _ _ a Hm1'). }
  assert (Hb1 : load_bytes m1' b CONTAINER_ID_LEN = Some sb).
  { rewrite <- Hb. now apply (memmove_load_disjoint _ _ _ _ _ b Hm1'). }
  destruct (memmove_Some m1 e c _ sc se Hc1 He1) as [m2 Hm2].
  destruct (memmove_Some m1' b a _ sa sb Ha1 Hb1) as [m2' Hm2'].
  exists m1, m1', m2. split; [assumption|]. split; [assumption|].
  split; [assumption|]. rewrite Hm2'. f_equal. apply map_eq. intros x.
  destruct (in_window_dec e CONTAINER_ID_LEN x) as [Hxe|Hxe];
    [|destruct (in_window_dec b CONTAINER_ID_LEN x) as [Hxb|Hxb]].
  - rewrite (memmove_lookup_dst _ _ _ _ _ _ Hm2 Hxe).
    rewrite (memmove_lookup_out _ _ _ _ _ x Hm2')
      by (unfold in_window, disjoint in *; lia).
    rewrite (memmove_lookup_dst _ _ _ _ _ _ Hm1' Hxe).
    symmetry. apply (memmove_lookup_out _ _ _ _ _ _ Hm1).
    unfold in_window, disjoint in *. lia.
  - rewrite (memmove_lookup_dst _ _ _ _ _ _ Hm2' Hxb).
    rewrite (memmove_lookup_out _ _ _ _ _ x Hm2 Hxe).
    rewrite (memmove_lookup_dst _ _ _ _ _ _ Hm1 Hxb).
    apply (memmove_lookup_out _ _ _ _ _ _ Hm1').
    unfold in_window, disjoint in *. lia.
  - rewrite (memmove_lookup_out _ _ _ _ _ x Hm2' Hxb).
    rewrite (memmove_lookup_out _ _ _ _ _ x Hm1' Hxe).
    rewrite (memmove_lookup_out _ _ _ _ _ x Hm2 Hxe).
    now rewrite (memmove_lookup_out _ _ _ _ _ x Hm1 Hxb).
Qed.

(** X5.  The last copy into a destination wins: when the second source is
    disjoint from the destination, copying [a] to [dst] and then [b] to
    [dst] gives the same memory as copying [b] to [dst] alone. *)
Theorem copy_container_id_last_wins m a b dst sa sb d :
  disjoint b dst CONTAINER_ID_LEN ->
  load_bytes m a CONTAINER_ID_LEN = Some sa ->
  load_bytes m b CONTAINER_ID_LEN = Some sb ->
  load_bytes m dst CONTAINER_ID_LEN = Some d ->
  exists m1 m2,
    copy_container_id CONTAINER_ID_LEN m a dst = Some m1 /\
    copy_container_id CONTAINER_ID_LEN m1 b dst = Some m2 /\
    copy_container_id CONTAINER_ID_LEN m b dst = Some m2.
Proof.
  intros Hdis Ha Hb Hd. unfold copy_container_id.
  destruct (memmove_Some m dst a _ sa d Ha Hd) as [m1 Hm1].
  pose proof (memmove_load_dst _ _ _ _ _ _ Ha Hm1) as Hd1.
  assert (Hb1 : load_bytes m1 b CONTAINER_ID_LEN = Some sb).
  { rewrite <- Hb. now apply (memmove_load_disjoint _ _ _ _ _ b Hm1). }
  destruct (memmove_Some m1 dst b _ sb sa Hb1 Hd1) as [m2 Hm2].
  destruct (memmove_Some m dst b _ sb d Hb Hd) as [m2' Hm2'].
  exists m1, m2. split; [assumption|]. split; [assumption|].
  rewrite Hm2'. f_equal. apply map_eq. intros x.
  destruct (in_window_dec dst CONTAINER_ID_LEN x) as [Hx|Hx].
  - rewrite (memmove_lookup_dst _ _ _ _ _ _ Hm2 Hx).
    rewrite (memmove_lookup_dst _ _ _ _ _ _ Hm2' Hx).
    symmetry. apply (memmove_lookup_out _ _ _ _ _ _ Hm1).
    unfold in_window, disjoint in *. lia.
  - rewrite (memmove_lookup_out _ _ _ _ _ x Hm2 Hx).
    rewrite (memmove_lookup_out _ _ _ _ _ x Hm2' Hx).
    now rewrite (memmove_lookup_out _ _ _ _ _ x Hm1 Hx).
Qed.

(** X6.  What an upward overlap does to the source: when the destination
    starts [k] bytes above the source ([k] at most the width), the source
    window afterwards keeps its first [k] bytes and then holds the first
    [CONTAINER_ID_LEN - k] source bytes again. *)
Theorem copy_container_id_source_after_up m src (k : nat) s d :
  (k <= CONTAINER_ID_LEN)%nat ->
  load_bytes m src CONTAINER_ID_LEN = Some s ->
  load_bytes m (src + Z.of_nat k) CONTAINER_ID_LEN = Some d ->
  exists m',
    copy_container_id CONTAINER_ID_LEN m src (src + Z.of_nat k) = Some m' /\
    load_bytes m' src CONTAINER_ID_LEN =
      Some (take k s ++ take (CONTAINER_ID_LEN - k) s).
Proof.
  intros Hk Hs Hd. unfold copy_container_id.
  destruct (memmove_Some m _ src _ s d Hs Hd) as [m' Hm'].
  pose proof (load_bytes_length _ _ _ _ Hs) as Hlen.
  exists m'. split; [assumption|].
  apply load_bytes_of_lookup_len.
  - rewrite length_app, !length_take_le by lia. lia.
  - intros i Hi. destruct (le_lt_dec k i) as [Hge|Hlt].
    + replace (src + Z.of_nat i)
        with (src + Z.of_nat k + Z.of_nat (i - k)) by lia.
      rewrite (memmove_lookup_in _ _ _ _ _ (i - k)%nat Hm') by lia.
      rewrite (load_bytes_lookup _ _ _ _ Hs) by lia.
      rewrite lookup_app_r by (rewrite length_take_le; lia).
      rewrite length_take_le by lia.
      now rewrite lookup_take_lt by lia.
    + rewrite (memmove_lookup_out _ _ _ _ _ (src + Z.of_nat i) Hm')
        by (unfold in_window; lia).
      rewrite (load_bytes_lookup _ _ _ _ Hs) by lia.
      rewrite lookup_app_l by (rewrite length_take_le; lia).
      now rewrite lookup_take_lt by lia.
Qed.

(** X7.  What a downward overlap does to the source: when the source starts
    [k] bytes above the destination ([k] at most the width), the source
    window afterwards holds the source bytes from offset [k] on, followed
    by its own last [k] bytes unchanged. *)
Theorem copy_container_id_source_after_down m dst (k : nat) s d :
  (k <= CONTAINER_ID_LEN)%nat ->
  load_bytes m (dst + Z.of_nat k) CONTAINER_ID_LEN = Some s ->
  load_bytes m dst CONTAINER_ID_LEN = Some d ->
  exists m',
    copy_container_id CONTAINER_ID_LEN m (dst + Z.of_nat k) dst = Some m' /\
    load_bytes m' (dst + Z.of_nat k) CONTAINER_ID_LEN =
      Some (drop k s ++ drop (CONTAINER_ID_LEN - k) s).
Proof.
  intros Hk Hs Hd. unfold copy_container_id.
  destruct (memmove_Some m dst _ _ s d Hs Hd) as [m' Hm'].
  pose proof (load_bytes_length _ _ _ _ Hs) as Hlen.
  exists m'. split; [assumption|].
  apply load_bytes_of_lookup_len.
  - rewrite length_app, !length_drop. lia.
  - intros i Hi. destruct (le_lt_dec (CONTAINER_ID_LEN - k) i) as [Hge|Hlt].
    + rewrite (memmove_lookup_out _ _ _ _ _ (dst + Z.of_nat k + Z.of_nat i) Hm')
        by (unfold in_window; lia).
      rewrite (load_bytes_lookup _ _ _ _ Hs) by lia.
      rewrite lookup_app_r by (rewrite length_drop; lia).
      rewrite length_drop, lookup_drop. f_equal. lia.
    + replace (dst + Z.of_nat k + Z.of_nat i)
        with (dst + Z.of_nat (k + i)) by lia.
      rewrite (memmove_lookup_in _ _ _ _ _ (k + i)%nat Hm') by lia.
      rewrite (load_bytes_lookup _ _ _ _ Hs) by lia.
      rewrite lookup_app_l by (rewrite length_drop; lia).
      now rewrite lookup_drop.
Qed.

End WithLen.

(** *** The theorems at width 4, on the sample memory *)

Lemma copy_container_id_chain_any_witness :
  exists m1 m2,
    copy_container_id 4 Sample.arena 0 2 = Some m1 /\
    copy_container_id 4 m1 2 1 = Some m2 /\
    load_bytes m2 1 4 = Some [x10; x11; x12; x13].
Proof.
  apply (copy_container_id_chain_any 4 Sample.arena 0 2 1
           [x10; x11; x12; x13] [x12; x13; x20; x21] [x11; x12; x13; x20]);
    vm_compute; reflexivity.
Defined.

Lemma copy_container_id_round_trip_witness :
  exists m1 m2,
    copy_container_id 4 Sample.arena 0 2 = Some m1 /\
    copy_container_id 4 m1 2 0 = Some m2 /\
    load_bytes m2 0 4 = Some [x10; x11; x12; x13] /\
    (disjoint 0 2 4 -> m2 = m1).
Proof.
  apply (copy_container_id_round_trip 4 Sample.arena 0 2
           [x10; x11; x12; x13] [x12; x13; x20; x21]);
    vm_compute; reflexivity.
Defined.

Lemma copy_container_id_commute_witness :
  exists m1 m1' m2,
    copy_container_id 4 Sample.arena 0 2 = Some m1 /\
    copy_container_id 4 m1 6 8 = Some m2 /\
    copy_container_id 4 Sample.arena 6 8 = Some m1' /\
    copy_container_id 4 m1' 0 2 = Some m2.
Proof.
  apply (copy_container_id_commute 4 Sample.arena 0 2 6 8
           [x10; x11; x12; x13] [x12; x13; x20; x21]
           [x22; x23; x30; x31] [x30; x31; x32; x33]).
  - unfold disjoint. lia.
  - unfold disjoint. lia.
  - unfold disjoint. lia.
  - vm_compute. reflexivity.
  - vm_compute. reflexivity.
  - vm_compute. reflexivity.
  - vm_compute. reflexivity.
Defined.

Lemma copy_container_id_last_wins_witness :
  exists m1 m2,
    copy_container_id 4 Sample.arena 6 8 = Some m1 /\
    copy_container_id 4 m1 0 8 = Some m2 /\
    copy_container_id 4 Sample.arena 0 8 = Some m2.
Proof.
  apply (copy_container_id_last_wins 4 Sample.arena 6 0 8
           [x22; x23; x30; x31] [x10; x11; x12; x13] [x30; x31; x32; x33]).
  - unfold disjoint. lia.
  - vm_compute. reflexivity.
  - vm_compute. reflexivity.
  - vm_compute. reflexivity.
Defined.

Lemma copy_container_id_source_after_up_witness :
  exists m',
    copy_container_id 4 Sample.arena 0 (0 + Z.of_nat 3) = Some m' /\
    load_bytes m' 0 4 =
      Some (take 3 [x10; x11; x12; x13] ++ take (4 - 3) [x10; x11; x12; x13]).
Proof.
  apply (copy_container_id_source_after_up 4 Sample.arena 0 3
           [x10; x11; x12; x13] [x13; x20; x21; x22]).
  - lia.
  - vm_compute. reflexivity.
  - vm_compute. reflexivity.
Defined.

Lemma copy_container_id_source_after_down_witness :
  exists m',
    copy_container_id 4 Sample.arena (5 + Z.of_nat 3) 5 = Some m' /\
    load_bytes m' (5 + Z.of_nat 3) 4 =
      Some (drop 3 [x30; x31; x32; x33] ++ drop (4 - 3) [x30; x31; x32; x33]).
Proof.
  apply (copy_container_id_source_after_down 4 Sample.arena 5 3
           [x30; x31; x32; x33] [x21; x22; x23; x30]).
  - lia.
  - vm_compute. reflexivity.
  - vm_compute. reflexivity.
Defined.

End ContainerCompose.
